(** * spacepy/sandbox/date2num.c: calendar timestamps to day numbers

    A shallow embedding of [date2num.c] and the proofs of its properties.

    - [Calendar]: the proleptic Gregorian ordinal, [ymd_to_ord], which the C
      file calls but takes from CPython's [datetimemodule.c].
    - [Double]: C [double] as Rocq's binary64 [float], and the exact
      rational value of a double.
    - [Cpp]: the object-like macros of lines 16-23 as token lists, expanded
      textually, and the C evaluation of the expanded tokens.
    - then [date2num] (lines 41-62), the loop of lines 100-102 and
      [date2num_common] (lines 65-119) with the argument parse it starts
      with.
    - Properties: the calendar, exact double arithmetic, the converter and
      the batch driver, then the signs of the results, the midnights, the
      macros, and the bounds of the loop, each in a section of its own. *)

From Stdlib Require Import ZArith QArith Qround Floats Lia Bool String.
From stdpp Require Import base list.

Local Open Scope Z_scope.

(** ** The ordinal day calculator *)

Module Calendar.

(** Modelled from the spec: the leap-year rule of section 4.1 (a year is a
    leap year iff divisible by 4, and not by 100 unless also by 400); the C
    file has no such function of its own. *)
Definition is_leap (y : Z) : bool :=
  (y mod 4 =? 0) && (negb (y mod 100 =? 0) || (y mod 400 =? 0)).

(** Modelled from the spec: the month lengths
    {31,28or29,31,30,31,30,31,31,30,31,30,31} of section 4.1. *)
Definition month_lengths (y : Z) : list Z :=
  [31; if is_leap y then 29 else 28; 31; 30; 31; 30; 31; 31; 30; 31; 30; 31].

Definition sumZ (l : list Z) : Z := fold_right Z.add 0 l.

Definition days_in_month (y m : Z) : Z :=
  nth (Z.to_nat (m - 1)) (month_lengths y) 0.

Definition days_in_year (y : Z) : Z := if is_leap y then 366 else 365.

(** The total length of the years 1..n, counted year by year. *)
Fixpoint days_of_years (n : nat) : Z :=
  match n with
  | O => 0
  | S n' => days_of_years n' + days_in_year (Z.of_nat n)
  end.

(** Modelled from the spec: [days_before_year] of section 4.1, step 1; it is
    a function of CPython's [datetimemodule.c], absent from [date2num.c]. *)
Definition days_before_year (y : Z) : Z :=
  365 * (y - 1) + (y - 1) / 4 - (y - 1) / 100 + (y - 1) / 400.

(** Modelled from the spec: [days_before_month] of section 4.1, step 2, the
    sum of the lengths of months 1..m-1; absent from [date2num.c]. *)
Definition days_before_month (y m : Z) : Z :=
  sumZ (firstn (Z.to_nat (m - 1)) (month_lengths y)).

(** Lines 34-39 of [date2num.c] quote the function from [datetimemodule.c]:
    [return days_before_year(year) + days_before_month(year, month) + day;] *)
Definition ymd_to_ord (year month day : Z) : Z :=
  days_before_year year + days_before_month year month + day.

(** The input contract of section 4.1. *)
Definition valid_date (y m d : Z) : Prop :=
  1 <= y /\ 1 <= m <= 12 /\ 1 <= d <= days_in_month y m.

Definition valid_dateb (y m d : Z) : bool :=
  (1 <=? y) && (1 <=? m) && (m <=? 12) && (1 <=? d) && (d <=? days_in_month y m).

(** The calendar successor of a date: the next day of the month, else the
    first of the next month, else the first of January of the next year. *)
Definition next_day (ymd : Z * Z * Z) : Z * Z * Z :=
  let '(y, m, d) := ymd in
  if d <? days_in_month y m then (y, m, d + 1)
  else if m <? 12 then (y, m + 1, 1)
  else (y + 1, 1, 1).

Definition ord (ymd : Z * Z * Z) : Z :=
  let '(y, m, d) := ymd in ymd_to_ord y m d.

Definition valid (ymd : Z * Z * Z) : Prop :=
  let '(y, m, d) := ymd in valid_date y m d.

(** The date reached from [ymd] after [n] days. *)
Fixpoint advance (n : nat) (ymd : Z * Z * Z) : Z * Z * Z :=
  match n with
  | O => ymd
  | S n' => advance n' (next_day ymd)
  end.

End Calendar.

(** ** C doubles *)

Module Double.

(** A C [double] is an IEEE 754 binary64 number: Rocq's primitive [float],
    whose operations round to nearest, ties to even. *)
Definition double : Set := float.

(** [(double)n] for a C [int] [n]. *)
Definition int_to_double (n : Z) : double :=
  if n <? 0 then (- of_uint63 (Uint63.of_Z (- n)))%float
  else of_uint63 (Uint63.of_Z n).

(** The rational number [(-1)^s * m * 2^e] a finite double stands for. *)
Definition SF2Q (x : spec_float) : option Q :=
  match x with
  | S754_zero _ => Some 0%Q
  | S754_finite s m e =>
      let n := cond_Zopp s (Zpos m) in
      Some (if 0 <=? e then inject_Z (n * 2 ^ e) else n # Z.to_pos (2 ^ (- e)))
  | S754_infinity _ | S754_nan => None
  end.

Definition value (x : double) : option Q := SF2Q (Prim2SF x).

(** Integer part [floor x] and fractional part [x - floor x] of the number
    a double stands for; the fraction is in lowest terms. *)
Definition integer_part (x : double) : option Z :=
  option_map Qfloor (value x).

Definition fractional_part (x : double) : option Q :=
  option_map (fun q => Qred (q - inject_Z (Qfloor q))) (value x).

(** [m * 2^k], as the mantissa alignment of the format computes it. *)
Definition shl (m : positive) (k : Z) : positive :=
  match k with Zpos d => Pos.iter xO m d | _ => m end.

(** Number of binary digits of a positive integer. *)
Definition digits (n : Z) : Z := Zpos (digits2_pos (Z.to_pos n)).

End Double.

(** ** The preprocessor and C expressions *)

Module Cpp.
Import Double.

Inductive token : Set :=
| T_int (n : Z)               (* integer constant, type int *)
| T_double (x : double)       (* floating constant, type double *)
| T_id (name : string)        (* identifier: a macro name *)
| T_cast_double (v : string)  (* (double)v, v a local int variable *)
| T_mul                       (* the operator of multiplication *)
| T_div                       (* the operator of division *)
| T_add.                      (* the operator of addition *)

(** Lines 16-23: object-like macros, each name with its replacement list
    exactly as written: no parentheses around any replacement. *)
Definition defines : list (string * list token) :=
  [ ("HOURS_PER_DAY",     [T_int 24]);
    ("MINUTES_PER_DAY",   [T_int 60; T_mul; T_id "HOURS_PER_DAY"]);
    ("SECONDS_PER_DAY",   [T_int 60; T_mul; T_id "MINUTES_PER_DAY"]);
    ("MUSECONDS_PER_DAY", [T_double 1e6%float; T_mul; T_id "SECONDS_PER_DAY"]);
    ("SEC_PER_MIN",       [T_int 60]);
    ("SEC_PER_HOUR",      [T_int 3600]);
    ("SEC_PER_DAY",       [T_id "SEC_PER_HOUR"; T_mul; T_int 24]);
    ("SEC_PER_WEEK",      [T_id "SEC_PER_DAY"; T_mul; T_int 7]) ]%string.

Fixpoint assoc {A : Type} (name : string) (l : list (string * A)) : option A :=
  match l with
  | [] => None
  | (k, v) :: l' => if String.eqb name k then Some v else assoc name l'
  end.

(** Macro replacement: a macro name is replaced by its replacement list,
    which is rescanned for further macro names; the other tokens stay.
    [depth] bounds the nesting of replacements. *)
Fixpoint expand (depth : nat) (ts : list token) : list token :=
  match depth with
  | O => ts
  | S depth' =>
      flat_map
        (fun t =>
           match t with
           | T_id name =>
               match assoc name defines with
               | Some body => expand depth' body
               | None => [t]
               end
           | _ => [t]
           end) ts
  end.

Definition preprocess (ts : list token) : list token :=
  expand (List.length defines) ts.

(** Values of type [int] and [double]. *)
Inductive cval : Set :=
| V_int (n : Z)
| V_double (x : double).

(** Signed 32-bit [int] arithmetic, written with its wrap-around. *)
Definition INT_MAX : Z := 2147483647.
Definition wrap_int (z : Z) : Z := (z + 2 ^ 31) mod 2 ^ 32 - 2 ^ 31.

Definition to_double (v : cval) : double :=
  match v with
  | V_int n => int_to_double n
  | V_double x => x
  end.

(** The usual arithmetic conversions: an operation on two [int]s is an
    [int] operation ([/] truncates); if either operand is a [double] the
    other is converted and the operation is on doubles. *)
Definition c_mul (a b : cval) : cval :=
  match a, b with
  | V_int x, V_int y => V_int (wrap_int (x * y))
  | _, _ => V_double (to_double a * to_double b)%float
  end.

Definition c_div (a b : cval) : cval :=
  match a, b with
  | V_int x, V_int y => V_int (wrap_int (Z.quot x y))
  | _, _ => V_double (to_double a / to_double b)%float
  end.

Definition c_add (a b : cval) : cval :=
  match a, b with
  | V_int x, V_int y => V_int (wrap_int (x + y))
  | _, _ => V_double (to_double a + to_double b)%float
  end.

(** The values of the local [int] variables. *)
Definition locals : Type := list (string * Z).

Definition primary (env : locals) (t : token) : option cval :=
  match t with
  | T_int n => Some (V_int n)
  | T_double x => Some (V_double x)
  | T_cast_double v => option_map (fun n => V_double (int_to_double n)) (assoc v env)
  | _ => None
  end.

(** Evaluation of a primary followed by operator-primary pairs, with C's
    precedence and left-to-right associativity: [*] and [/] bind tighter than [+], and
    operators of equal precedence group from the left. [sum] is the value
    of the terms already added, [term] the value of the current product. *)
Fixpoint eval_from (env : locals) (sum : option cval) (term : cval)
    (ts : list token) : option cval :=
  let total := match sum with Some s => c_add s term | None => term end in
  match ts with
  | [] => Some total
  | T_mul :: t :: ts' =>
      match primary env t with
      | Some v => eval_from env sum (c_mul term v) ts'
      | None => None
      end
  | T_div :: t :: ts' =>
      match primary env t with
      | Some v => eval_from env sum (c_div term v) ts'
      | None => None
      end
  | T_add :: t :: ts' =>
      match primary env t with
      | Some v => eval_from env (Some total) v ts'
      | None => None
      end
  | _ => None
  end.

Definition eval (env : locals) (ts : list token) : option cval :=
  match ts with
  | t :: ts' =>
      match primary env t with
      | Some v => eval_from env None v ts'
      | None => None
      end
  | [] => None
  end.

End Cpp.

(** ** [date2num.c] *)

Import Calendar Double Cpp.

(** What [PyDate_Check] looks at: the type of the object. A datetime is a
    subtype of date, so both pass the check. *)
Inductive PyTypeObject : Set :=
| PyDateTime_DateTimeType
| PyDateTime_DateType
| PyOther_Type.

(** The object behind a [PyDateTime_DateTime *]: its type and the integers
    the accessor macros of [datetime.h] read from it. *)
Record PyDateTime_DateTime : Set := {
  ob_type : PyTypeObject;
  dt_year : Z;
  dt_month : Z;
  dt_day : Z;
  dt_hour : Z;
  dt_minute : Z;
  dt_second : Z;
  dt_microsecond : Z
}.

Definition PyDate_Check (o : PyDateTime_DateTime) : bool :=
  match ob_type o with
  | PyDateTime_DateTimeType | PyDateTime_DateType => true
  | PyOther_Type => false
  end.

Inductive accessor : Set :=
| PyDateTime_DATE_GET_MICROSECOND
| PyDateTime_DATE_GET_SECOND
| PyDateTime_DATE_GET_MINUTE
| PyDateTime_DATE_GET_HOUR
| PyDateTime_GET_DAY
| PyDateTime_GET_MONTH
| PyDateTime_GET_YEAR.

Definition read (a : accessor) (o : PyDateTime_DateTime) : Z :=
  match a with
  | PyDateTime_DATE_GET_MICROSECOND => dt_microsecond o
  | PyDateTime_DATE_GET_SECOND => dt_second o
  | PyDateTime_DATE_GET_MINUTE => dt_minute o
  | PyDateTime_DATE_GET_HOUR => dt_hour o
  | PyDateTime_GET_DAY => dt_day o
  | PyDateTime_GET_MONTH => dt_month o
  | PyDateTime_GET_YEAR => dt_year o
  end.

(** Computations that record, in order, the accessors they apply. *)
Definition Reads (A : Type) : Type := list accessor -> A * list accessor.

#[global] Instance Reads_ret : MRet Reads := fun A x log => (x, log).

#[global] Instance Reads_bind : MBind Reads :=
  fun A B f m log => let '(a, log') := m log in f a log'.

Definition get (a : accessor) (o : PyDateTime_DateTime) : Reads Z :=
  fun log => (read a o, log ++ [a]).

(** Lines 57-60, the right-hand side of [ord += ...], token by token:
[[
    (double)hour/HOURS_PER_DAY +
    (double)minute/MINUTES_PER_DAY +
    (double)second/SECONDS_PER_DAY +
    (double)microsecond/MUSECONDS_PER_DAY
]] *)
Definition fraction_tokens : list token :=
  [ T_cast_double "hour"; T_div; T_id "HOURS_PER_DAY"; T_add;
    T_cast_double "minute"; T_div; T_id "MINUTES_PER_DAY"; T_add;
    T_cast_double "second"; T_div; T_id "SECONDS_PER_DAY"; T_add;
    T_cast_double "microsecond"; T_div; T_id "MUSECONDS_PER_DAY" ]%string.

(** The value added to [ord] on lines 57-60, from the locals. An expression
    that does not evaluate has no counterpart in C (it would not compile);
    [fraction_evaluates] shows the case does not arise. *)
Definition fraction (hour minute second microsecond : Z) : double :=
  let env := [ ("hour", hour); ("minute", minute); ("second", second);
               ("microsecond", microsecond) ]%string in
  match eval env (preprocess fraction_tokens) with
  | Some v => to_double v
  | None => nan
  end.

(** Lines 41-62. Line 45 reads [if !(PyDate_Check(inval))], which is taken
    as [if (!PyDate_Check(inval))]. *)
Definition date2num_reads (inval : PyDateTime_DateTime) : Reads double :=
  if negb (PyDate_Check inval) then mret (-999)%float
  else
    microsecond ← get PyDateTime_DATE_GET_MICROSECOND inval;
    second ← get PyDateTime_DATE_GET_SECOND inval;
    minute ← get PyDateTime_DATE_GET_MINUTE inval;
    hour ← get PyDateTime_DATE_GET_HOUR inval;
    day ← get PyDateTime_GET_DAY inval;
    month ← get PyDateTime_GET_MONTH inval;
    year ← get PyDateTime_GET_YEAR inval;
    let ord := int_to_double (ymd_to_ord year month day) in
    let ord := (ord + fraction hour minute second microsecond)%float in
    mret ord.

Definition date2num (inval : PyDateTime_DateTime) : double :=
  fst (date2num_reads inval []).

(** The accessors [date2num] applies to its argument, in order. *)
Definition fields_read (inval : PyDateTime_DateTime) : list accessor :=
  snd (date2num_reads inval []).

(** Lines 100-102,
[[
    for (i=0;i<inval_p_len;i++){ outval[i] = date2num(inval[i]); }
]]
    run for [n] more iterations from index [i]. Reading [inval[i]] or
    writing [outval[i]] outside the array is undefined: [None]. The counter
    stays below [inval_p_len], an [int], so it does not wrap. *)
Fixpoint loop (n i : nat) (inval : list PyDateTime_DateTime)
    (outval : list double) : option (list double) :=
  match n with
  | O => Some outval
  | S n' =>
      match inval !! i with
      | Some o =>
          if decide (i < length outval)%nat
          then loop n' (S i) inval (<[i := date2num o]> outval)
          else None
      | None => None
      end
  end.

(** The loop with its bound [inval_p_len], an [int]: it runs
    [inval_p_len] times, and not at all when the bound is zero or less. *)
Definition run_loop (inval_p_len : Z) (inval : list PyDateTime_DateTime)
    (outval : list double) : option (list double) :=
  loop (Z.to_nat inval_p_len) 0 inval outval.

(** An argument of the Python call: an array with its elements, or an
    object of any other type. *)
Inductive PyValue : Type :=
| Py_ndarray (elems : list PyDateTime_DateTime)
| Py_other.

(** What the format unit [O!] with [&PyArray_Type] accepts. *)
Definition PyArray_Check (v : PyValue) : bool :=
  match v with
  | Py_ndarray _ => true
  | Py_other => false
  end.

(** Line 79, [static char *kwlist[] = {NULL};]: no parameter name. *)
Definition kwlist : list string := [].

(** Lines 83-84, the format ["O!"] with [&PyArray_Type]: one unit, given by
    the check it makes on its argument. *)
Definition format_units : list (PyValue -> bool) := [PyArray_Check].

(** The conversion loop of CPython's argument parser ([vgetargskeywords]
    in [Python/getargs.c], not part of this repository): it goes through
    the parameter names; the argument of a name is the next positional
    argument or, after these, the keyword argument of that name; it must be
    there (the format has no optional part) and pass the check of the next
    format unit; a name without a format unit is an error. *)
Fixpoint convert_args (names : list string) (units : list (PyValue -> bool))
    (args : list PyValue) (kwargs : list (string * PyValue)) : bool :=
  match names with
  | [] => true
  | name :: names' =>
      match units with
      | [] => false
      | check :: units' =>
          match args with
          | v :: args' => check v && convert_args names' units' args' kwargs
          | [] =>
              match assoc name kwargs with
              | Some v => check v && convert_args names' units' [] kwargs
              | None => false
              end
          end
      end
  end.

(** [PyArg_ParseTupleAndKeywords], by the steps of [vgetargskeywords]: the
    call fails when it has more arguments than there are parameter names
    ("takes at most n arguments"); then the arguments are converted; then it
    fails when format units are left over ("more argument specifiers than
    keyword list entries") or a keyword is not a parameter name. The call on
    lines 82-84 passes no address after [&PyArray_Type], so the parser has
    nowhere to store an argument: only its verdict is modelled. *)
Definition PyArg_ParseTupleAndKeywords (args : list PyValue)
    (kwargs : list (string * PyValue)) (units : list (PyValue -> bool))
    (names : list string) : bool :=
  if (length names <? length args + length kwargs)%nat then false
  else
    convert_args names units args kwargs
    && (length units <=? length names)%nat
    && forallb (fun kv => existsb (String.eqb (fst kv)) names) kwargs.

Inductive outcome : Type :=
| Returned (outval : list double)  (* the array handed to the caller *)
| Returned_NULL                    (* NULL, with a Python exception set *)
| Undefined.                       (* an access outside an array *)

(** Lines 65-119, for a call with the positional arguments [args] and the
    keyword arguments [kwargs]. Lines 82-85 return NULL when the parse
    fails. Nothing binds an argument to [inval], and the function sets
    neither [inval_p_len] nor [outval] (line 98, [TODO somewhere need to
    give outval some memory]; line 99, [TODO set the lengh of inval_p into
    inval_p_len]): what these locals hold is given by the parameters
    [inval_p_len], [inval] and [outval]. Line 109 sets [outval] to the data
    of [fieldx], which no line declares: the parameter [fieldx], and that is
    what line 118 returns. Lines 87-94 concern [outval_p] only. *)
Definition date2num_common (args : list PyValue)
    (kwargs : list (string * PyValue)) (inval_p_len : Z)
    (inval : list PyDateTime_DateTime) (outval fieldx : list double)
    : outcome :=
  if negb (PyArg_ParseTupleAndKeywords args kwargs format_units kwlist)
  then Returned_NULL
  else
    match run_loop inval_p_len inval outval with
    | Some _ => Returned fieldx
    | None => Undefined
    end.

(** *** Timestamps and the specification's converter *)

(** A valid calendar timestamp (section 3), held in the C [int]s the
    function reads it into. *)
Definition valid_timestamp (o : PyDateTime_DateTime) : Prop :=
  ob_type o = PyDateTime_DateTimeType /\
  valid_date (dt_year o) (dt_month o) (dt_day o) /\
  dt_year o <= INT_MAX /\
  0 <= dt_hour o <= 23 /\
  0 <= dt_minute o <= 59 /\
  0 <= dt_second o <= 59 /\
  0 <= dt_microsecond o <= 999999.

Definition datetime (y m d hh mm ss us : Z) : PyDateTime_DateTime :=
  {| ob_type := PyDateTime_DateTimeType;
     dt_year := y; dt_month := m; dt_day := d;
     dt_hour := hh; dt_minute := mm; dt_second := ss; dt_microsecond := us |}.

(** A Python object that is not a date, whatever lies in its memory. *)
Definition not_a_date (y m d hh mm ss us : Z) : PyDateTime_DateTime :=
  {| ob_type := PyOther_Type;
     dt_year := y; dt_month := m; dt_day := d;
     dt_hour := hh; dt_minute := mm; dt_second := ss; dt_microsecond := us |}.

(** Modelled from the spec: section 4.2, [to_day_number] is the ordinal plus
    [fraction = hour/24 + minute/1440 + second/86400 +
    microsecond/86_400_000_000], every division a floating-point division.
    This is what lines 57-60 are claimed to compute. *)
Definition to_day_number (o : PyDateTime_DateTime) : double :=
  (int_to_double (ymd_to_ord (dt_year o) (dt_month o) (dt_day o))
   + (int_to_double (dt_hour o) / 24
      + int_to_double (dt_minute o) / 1440
      + int_to_double (dt_second o) / 86400
      + int_to_double (dt_microsecond o) / 86400000000))%float.

(** The expression lines 57-60 compute once the macros are replaced. *)
Definition expanded_fraction (hour minute second microsecond : Z) : double :=
  (int_to_double hour / 24
   + int_to_double minute / 60 * 24
   + int_to_double second / 60 * 60 * 24
   + int_to_double microsecond / 1e6 * 60 * 60 * 24)%float.

(** ** Signs and macro names *)

(** A double that is neither negative nor a NaN: [+0], a positive finite
    number or [+infinity]. *)
Definition nonneg_sf (x : spec_float) : bool :=
  match x with
  | S754_zero false | S754_finite false _ _ | S754_infinity false => true
  | _ => false
  end.

Definition nonneg (x : double) : bool := nonneg_sf (Prim2SF x).



(** * Properties *)

(** Validity of a concrete timestamp, by evaluation. *)
Ltac valid_now :=
  unfold valid_timestamp; cbn; repeat split;
  solve [ reflexivity | vm_compute; intuition discriminate ].

(** ** The ordinal day calculator *)

Section CalendarFacts.

Lemma valid_dateb_spec y m d : valid_dateb y m d = true <-> valid_date y m d.
Proof.
  unfold valid_dateb, valid_date.
  rewrite !andb_true_iff, !Z.leb_le. tauto.
Qed.

Lemma month_cases m :
  1 <= m <= 12 ->
  m = 1 \/ m = 2 \/ m = 3 \/ m = 4 \/ m = 5 \/ m = 6 \/
  m = 7 \/ m = 8 \/ m = 9 \/ m = 10 \/ m = 11 \/ m = 12.
Proof. lia. Qed.

Ltac each_month H :=
  apply month_cases in H;
  repeat (destruct H as [H | H]; [subst | ]); [ .. | subst ].

Lemma days_in_month_bounds y m :
  1 <= m <= 12 -> 28 <= days_in_month y m <= 31.
Proof.
  intros Hm. each_month Hm;
    unfold days_in_month, month_lengths; simpl;
    try destruct (is_leap y); lia.
Qed.

(** Adding one month adds that month's length. *)
Lemma days_before_month_succ y m :
  1 <= m <= 11 ->
  days_before_month y (m + 1) = days_before_month y m + days_in_month y m.
Proof.
  intros Hm.
  assert (Hm' : 1 <= m <= 12) by lia.
  each_month Hm'; try lia;
    unfold days_before_month, days_in_month, month_lengths, sumZ; simpl;
    destruct (is_leap y); lia.
Qed.

Lemma days_before_month_1 y : days_before_month y 1 = 0.
Proof. reflexivity. Qed.

(** The twelve months of a year add up to the year's length. *)
Lemma days_before_month_12 y :
  days_before_month y 12 + days_in_month y 12 = days_in_year y.
Proof.
  unfold days_before_month, days_in_month, days_in_year, month_lengths, sumZ.
  simpl. destruct (is_leap y); lia.
Qed.

Lemma days_before_month_bounds y m :
  1 <= m <= 12 -> 0 <= days_before_month y m <= 335.
Proof.
  intros Hm. each_month Hm;
    unfold days_before_month, month_lengths, sumZ; simpl;
    try destruct (is_leap y); lia.
Qed.

Lemma is_leap_cases y :
  (is_leap y = true /\ y mod 4 = 0 /\ (y mod 100 <> 0 \/ y mod 400 = 0)) \/
  (is_leap y = false /\ (y mod 4 <> 0 \/ (y mod 100 = 0 /\ y mod 400 <> 0))).
Proof.
  unfold is_leap.
  destruct (Z.eqb_spec (y mod 4) 0), (Z.eqb_spec (y mod 100) 0),
    (Z.eqb_spec (y mod 400) 0); simpl; lia.
Qed.

(** The closed formula counts the days year by year: the days before year
    [y+1] are those before [y] plus the length of year [y]. *)
Lemma days_before_year_succ y :
  days_before_year (y + 1) = days_before_year y + days_in_year y.
Proof.
  unfold days_before_year, days_in_year.
  replace (y + 1 - 1) with y by lia.
  destruct (is_leap_cases y) as [(-> & H4 & H) | (-> & H)];
    Z.to_euclidean_division_equations; lia.
Qed.

Lemma days_before_year_1 : days_before_year 1 = 0.
Proof. reflexivity. Qed.

Lemma days_in_year_bounds y : 365 <= days_in_year y <= 366.
Proof. unfold days_in_year. destruct (is_leap y); lia. Qed.

Lemma days_before_year_bounds y :
  1 <= y -> 365 * (y - 1) <= days_before_year y <= 366 * (y - 1).
Proof.
  intros Hy. unfold days_before_year.
  Z.to_euclidean_division_equations. lia.
Qed.

Lemma ymd_to_ord_bounds y m d :
  valid_date y m d -> 1 <= ymd_to_ord y m d <= 366 * y.
Proof.
  intros (Hy & Hm & Hd). unfold ymd_to_ord.
  pose proof (days_before_year_bounds y Hy).
  pose proof (days_before_month_bounds y m Hm).
  pose proof (days_in_month_bounds y m Hm).
  lia.
Qed.

Lemma next_day_ord y m d :
  valid_date y m d -> ord (next_day (y, m, d)) = ord (y, m, d) + 1.
Proof.
  intros (Hy & Hm & Hd). unfold next_day, ord, ymd_to_ord.
  destruct (Z.ltb_spec d (days_in_month y m)) as [Hlt | Hge]; [lia | ].
  assert (d = days_in_month y m) by lia. subst d.
  destruct (Z.ltb_spec m 12) as [Hm12 | Hm12].
  - rewrite days_before_month_succ by lia. lia.
  - assert (m = 12) by lia. subst m.
    rewrite days_before_year_succ, days_before_month_1.
    pose proof (days_before_month_12 y). lia.
Qed.

Lemma next_day_valid y m d :
  valid_date y m d -> valid (next_day (y, m, d)).
Proof.
  intros (Hy & Hm & Hd). unfold next_day, valid, valid_date.
  destruct (Z.ltb_spec d (days_in_month y m)) as [Hlt | Hge]; [lia | ].
  destruct (Z.ltb_spec m 12) as [Hm12 | Hm12].
  - pose proof (days_in_month_bounds y (m + 1)). lia.
  - pose proof (days_in_month_bounds (y + 1) 1). lia.
Qed.

Lemma advance_ord n : forall ymd,
  valid ymd -> valid (advance n ymd) /\ ord (advance n ymd) = ord ymd + Z.of_nat n.
Proof.
  induction n as [ | n IH]; intros [[y m] d] Hv.
  - simpl. split; [exact Hv | lia].
  - cbn [advance].
    destruct (IH (next_day (y, m, d)) (next_day_valid y m d Hv)) as [Hv' Ho].
    split; [exact Hv' | ].
    rewrite Ho, next_day_ord by exact Hv. lia.
Qed.

(** The closed formula is the total of the lengths of the years 1..y-1. *)
Lemma days_before_year_counts y :
  1 <= y -> days_before_year y = days_of_years (Z.to_nat (y - 1)).
Proof.
  intros Hy. replace y with (Z.of_nat (Z.to_nat (y - 1)) + 1) at 1 by lia.
  induction (Z.to_nat (y - 1)) as [ | n IH].
  - reflexivity.
  - cbn [days_of_years]. rewrite Nat2Z.inj_succ, <- Z.add_1_r.
    rewrite days_before_year_succ, IH. reflexivity.
Qed.

(** C3. For year >= 1, month in 1..12 and a day valid for them under the
    Gregorian leap-year rule, the ordinal is days_before_year +
    days_before_month + day, where days_before_year(y) =
    365*(y-1) + floor((y-1)/4) - floor((y-1)/100) + floor((y-1)/400), which
    is the total length of the years before y, and days_before_month sums
    the month lengths 31, 28 or 29, 31, 30, ... of months 1..m-1; all of it
    in integers. *)
Theorem ymd_to_ord_formula y m d :
  valid_date y m d ->
  ymd_to_ord y m d
  = (365 * (y - 1) + (y - 1) / 4 - (y - 1) / 100 + (y - 1) / 400)
    + sumZ (firstn (Z.to_nat (m - 1))
              [31; if is_leap y then 29 else 28; 31; 30; 31; 30;
               31; 31; 30; 31; 30; 31])
    + d
  /\ days_before_year y = days_of_years (Z.to_nat (y - 1))
  /\ (is_leap y = true <->
      y mod 4 = 0 /\ (y mod 100 <> 0 \/ y mod 400 = 0)).
Proof.
  intros (Hy & _ & _). split; [reflexivity | split].
  - apply days_before_year_counts, Hy.
  - destruct (is_leap_cases y) as [(-> & H4 & H) | (-> & H)];
      split; try tauto; try discriminate; lia.
Qed.

Lemma ymd_to_ord_formula_witness :
  ymd_to_ord 2000 3 1 = 730180 /\ days_before_year 2000 = 730119.
Proof.
  assert (Hv : valid_date 2000 3 1) by (vm_compute; intuition discriminate).
  destruct (ymd_to_ord_formula 2000 3 1 Hv) as (Ho & _ & _).
  split; [rewrite Ho | ]; reflexivity.
Defined.

(** C6. The anchor and the leap-year identities: ordinal(1,1,1) = 1;
    February 2000 has 29 days (2000 is a leap year); February 1900 has 28
    (1900 is divisible by 100 but not by 400). *)
Theorem ymd_to_ord_anchors :
  ymd_to_ord 1 1 1 = 1
  /\ ymd_to_ord 2000 3 1 - ymd_to_ord 2000 2 1 = 29
  /\ ymd_to_ord 1900 3 1 - ymd_to_ord 1900 2 1 = 28
  /\ is_leap 2000 = true
  /\ is_leap 1900 = false.
Proof. repeat split; reflexivity. Qed.

(** C7. The ordinal advances by exactly one with each calendar day: the
    successor of a valid date is a valid date whose ordinal is one more, so
    the ordinal after n days is n more (no gaps, no repeats); in particular
    ordinal(y,m,d) < ordinal(y,m,d+1) whenever d+1 is a day of that month. *)
Theorem ymd_to_ord_successor y m d :
  valid_date y m d ->
  ord (next_day (y, m, d)) = ymd_to_ord y m d + 1
  /\ valid (next_day (y, m, d))
  /\ (forall n, ord (advance n (y, m, d)) = ymd_to_ord y m d + Z.of_nat n)
  /\ (d + 1 <= days_in_month y m ->
      next_day (y, m, d) = (y, m, d + 1)
      /\ ymd_to_ord y m d < ymd_to_ord y m (d + 1)).
Proof.
  intros Hv. split; [ | split; [ | split]].
  - apply (next_day_ord y m d Hv).
  - apply next_day_valid, Hv.
  - intros n. apply (advance_ord n (y, m, d) Hv).
  - intros Hd. split.
    + unfold next_day.
      destruct (Z.ltb_spec d (days_in_month y m)); [reflexivity | lia].
    + unfold ymd_to_ord. lia.
Qed.

Lemma ymd_to_ord_successor_witness :
  ord (next_day (1999, 12, 31)) = ymd_to_ord 1999 12 31 + 1
  /\ next_day (1999, 12, 31) = (2000, 1, 1)
  /\ ord (next_day (2000, 2, 28)) = ymd_to_ord 2000 2 28 + 1
  /\ next_day (2000, 2, 28) = (2000, 2, 29).
Proof.
  assert (Hv : valid_date 1999 12 31) by (vm_compute; intuition discriminate).
  assert (Hw : valid_date 2000 2 28) by (vm_compute; intuition discriminate).
  split; [exact (proj1 (ymd_to_ord_successor 1999 12 31 Hv)) | ].
  split; [reflexivity | ].
  split; [exact (proj1 (ymd_to_ord_successor 2000 2 28 Hw)) | reflexivity].
Defined.

End CalendarFacts.

(** ** Exact double arithmetic

    The primitive operations are specified by the functions of [SpecFloat]
    ([of_uint63_spec], [add_spec]). Rounding returns its argument when the
    argument is representable; the lemmas below establish this for the two
    cases the converter meets: an integer below 2^53, and such an integer
    below 2^52 plus one half. *)

Section DoubleFacts.

Lemma iter_xO_Z m d : Zpos (Pos.iter xO m d) = Zpos m * 2 ^ Zpos d.
Proof.
  induction d as [ | d IH] using Pos.peano_ind.
  - simpl. lia.
  - rewrite Pos.iter_succ, (Pos2Z.inj_xO (Pos.iter xO m d)), IH, Pos2Z.inj_succ, Z.pow_succ_r by lia. lia.
Qed.

Lemma shl_Z m k : 0 <= k -> Zpos (shl m k) = Zpos m * 2 ^ k.
Proof.
  intros Hk. destruct k as [ | d | d]; simpl shl; [ lia | apply iter_xO_Z | lia].
Qed.

Lemma digits2_iter_xO m d :
  Zpos (digits2_pos (Pos.iter xO m d)) = Zpos (digits2_pos m) + Zpos d.
Proof.
  induction d as [ | d IH] using Pos.peano_ind.
  - simpl. lia.
  - rewrite Pos.iter_succ. simpl digits2_pos. rewrite Pos2Z.inj_succ, IH. lia.
Qed.

Lemma digits2_shl m k :
  0 <= k -> Zpos (digits2_pos (shl m k)) = Zpos (digits2_pos m) + k.
Proof.
  intros Hk. destruct k as [ | d | d]; simpl shl; [ lia | apply digits2_iter_xO | lia].
Qed.

Lemma digits2_bounds m :
  2 ^ (Zpos (digits2_pos m) - 1) <= Zpos m < 2 ^ Zpos (digits2_pos m).
Proof.
  induction m as [m IH | m IH | ]; simpl digits2_pos;
    [ rewrite Pos2Z.inj_succ, (Pos2Z.inj_xI m)
    | rewrite Pos2Z.inj_succ, (Pos2Z.inj_xO m)
    | simpl; lia ];
    replace (Z.succ (Zpos (digits2_pos m)) - 1)
      with (Z.succ (Zpos (digits2_pos m) - 1)) by lia;
    rewrite !Z.pow_succ_r by lia; lia.
Qed.

Lemma digits2_unique m d :
  2 ^ (d - 1) <= Zpos m < 2 ^ d -> Zpos (digits2_pos m) = d.
Proof.
  intros [Hlo Hhi]. pose proof (digits2_bounds m) as [Hlo' Hhi'].
  assert (Hd : 0 < d).
  { destruct d as [ | d | d]; [simpl in Hhi; lia | lia | ].
    rewrite Z.pow_neg_r in Hhi by lia. lia. }
  destruct (Z.lt_trichotomy (Zpos (digits2_pos m)) d) as [Hlt | [Heq | Hgt]];
    [ | exact Heq | ].
  - assert (2 ^ Zpos (digits2_pos m) <= 2 ^ (d - 1))
      by (apply Z.pow_le_mono_r; lia).
    lia.
  - assert (2 ^ d <= 2 ^ (Zpos (digits2_pos m) - 1))
      by (apply Z.pow_le_mono_r; lia).
    lia.
Qed.

Lemma iter_pos_iter {A} (f : A -> A) n : forall x, SpecFloat.iter_pos f n x = Pos.iter f x n.
Proof.
  induction n as [n IH | n IH | ]; intros x; simpl.
  - rewrite !IH. rewrite <- !Pos.iter_swap. reflexivity.
  - rewrite !IH. reflexivity.
  - reflexivity.
Qed.

Lemma iter_shr_1_exact d a :
  SpecFloat.iter_pos shr_1 d (Build_shr_record (Zpos (Pos.iter xO a d)) false false)
  = Build_shr_record (Zpos a) false false.
Proof.
  rewrite iter_pos_iter. revert a.
  induction d as [ | d IH] using Pos.peano_ind; intros a.
  - reflexivity.
  - rewrite Pos.iter_succ_r, (Pos.iter_succ d _ xO). simpl shr_1. apply IH.
Qed.

Lemma fexp_normal d : -1021 <= d -> fexp prec emax d = d - 53.
Proof. intros H. unfold fexp, SpecFloat.emin, prec, emax. lia. Qed.

Lemma binary_round_aux_canonical s m e :
  fexp prec emax (Zpos (digits2_pos m) + e) = e ->
  e <= emax - prec ->
  binary_round_aux prec emax s (Zpos m) e loc_Exact = S754_finite s m e.
Proof.
  intros Hc He.
  unfold binary_round_aux, shr_fexp, Zdigits2, shr_record_of_loc.
  rewrite Hc, Z.sub_diag. cbn [shr shr_m loc_of_shr_record round_nearest_even].
  rewrite Hc, Z.sub_diag. cbn [shr shr_m].
  destruct (Z.leb_spec e (emax - prec)); [reflexivity | lia].
Qed.

Lemma binary_round_shl s m e :
  let D := Zpos (digits2_pos m) in
  D <= 53 -> -1074 <= D + e - 53 <= 971 ->
  binary_round prec emax s m e = S754_finite s (shl m (53 - D)) (D + e - 53).
Proof.
  intros D HD He. unfold binary_round. fold D.
  rewrite fexp_normal by lia.
  assert (Hal : shl_align m e (D + e - 53) = (shl m (53 - D), D + e - 53)).
  { unfold shl_align, shl.
    replace (D + e - 53 - e) with (- (53 - D)) by lia.
    destruct (53 - D) as [ | k | k] eqn:Hk; simpl Z.opp; cbv iota;
      [ f_equal; lia | reflexivity | lia ]. }
  rewrite Hal. apply binary_round_aux_canonical.
  - rewrite digits2_shl by lia. fold D. rewrite fexp_normal by lia. lia.
  - unfold emax, prec. lia.
Qed.

Lemma binary_round_shr s a d e :
  Zpos (digits2_pos a) = 53 -> -1074 <= e + Zpos d <= 971 ->
  binary_round prec emax s (Pos.iter xO a d) e = S754_finite s a (e + Zpos d).
Proof.
  intros Ha He. unfold binary_round.
  rewrite digits2_iter_xO, Ha, fexp_normal by lia.
  unfold shl_align.
  replace (53 + Zpos d + e - 53 - e) with (Zpos d) by lia. cbv iota.
  unfold binary_round_aux, shr_fexp, Zdigits2, shr_record_of_loc.
  rewrite digits2_iter_xO, Ha, fexp_normal by lia.
  replace (53 + Zpos d + e - 53 - e) with (Zpos d) by lia.
  cbn [shr]. rewrite iter_shr_1_exact.
  cbn [shr_m loc_of_shr_record round_nearest_even].
  rewrite Ha, fexp_normal by lia.
  replace (53 + (e + Zpos d) - 53 - (e + Zpos d)) with 0 by lia.
  cbn [shr shr_m].
  destruct (Z.leb_spec (e + Zpos d) (emax - prec)) as [ | H]; [reflexivity | ].
  unfold emax, prec in H. lia.
Qed.

Lemma digits_range n b :
  0 < n < 2 ^ b -> 1 <= digits n <= b.
Proof.
  intros [Hn Hb]. unfold digits.
  pose proof (digits2_bounds (Z.to_pos n)) as [Hlo _].
  rewrite Z2Pos.id in Hlo by lia.
  split; [lia | ].
  destruct (Z.le_gt_cases (Zpos (digits2_pos (Z.to_pos n))) b) as [ | Hgt]; [assumption | ].
  assert (2 ^ b <= 2 ^ (Zpos (digits2_pos (Z.to_pos n)) - 1))
    by (apply Z.pow_le_mono_r; lia).
  lia.
Qed.

Lemma Prim2SF_int_to_double n :
  0 < n < 2 ^ 53 ->
  Prim2SF (int_to_double n)
  = S754_finite false (shl (Z.to_pos n) (53 - digits n)) (digits n - 53).
Proof.
  intros Hn. pose proof (digits_range n 53 Hn) as HD.
  unfold int_to_double.
  destruct (Z.ltb_spec n 0) as [ | _]; [lia | ].
  rewrite of_uint63_spec, Uint63.of_Z_spec, Z.mod_small
    by (change Uint63.wB with (2 ^ 63); split; [lia | ];
        apply Z.lt_trans with (2 ^ 53); [tauto | reflexivity]).
  destruct n as [ | p | p]; [lia | | lia].
  unfold binary_normalize. rewrite binary_round_shl.
  - unfold digits. simpl Z.to_pos. rewrite Z.add_0_r. reflexivity.
  - exact (proj2 HD).
  - unfold digits in HD. simpl Z.to_pos in HD. lia.
Qed.

Lemma Prim2SF_half : Prim2SF 0.5%float = S754_finite false 4503599627370496 (-53).
Proof. reflexivity. Qed.

Lemma Prim2SF_add_half n :
  0 < n < 2 ^ 52 ->
  Prim2SF (int_to_double n + 0.5)%float
  = S754_finite false (Z.to_pos ((2 * n + 1) * 2 ^ (52 - digits n))) (digits n - 53).
Proof.
  intros Hn. pose proof (digits_range n 52 Hn) as HD.
  assert (Hn53 : 0 < n < 2 ^ 53).
  { split; [lia | ]. apply Z.lt_trans with (2 ^ 52); [tauto | reflexivity]. }
  rewrite add_spec, Prim2SF_int_to_double, Prim2SF_half by exact Hn53.
  set (D := digits n) in *.
  set (a := Z.to_pos ((2 * n + 1) * 2 ^ (52 - D))).
  assert (Hpow : 0 < 2 ^ (52 - D)) by (apply Z.pow_pos_nonneg; lia).
  assert (Ha : Zpos a = (2 * n + 1) * 2 ^ (52 - D)) by (unfold a; rewrite Z2Pos.id; nia).
  unfold SF64add, SFadd.
  replace (Z.min (D - 53) (-53)) with (-53) by lia.
  unfold shl_align at 1.
  replace (-53 - (D - 53)) with (Zneg (digits2_pos (Z.to_pos n))) by (unfold D, digits; lia).
  cbv iota. cbn [fst cond_Zopp].
  unfold shl_align. rewrite Z.sub_diag. cbv iota. cbn [fst].
  unfold binary_normalize.
  set (dp := digits2_pos (Z.to_pos n)).
  assert (HDp : Zpos dp = D) by reflexivity.
  set (X := Pos.iter xO (shl (Z.to_pos n) (53 - D)) dp).
  change (Zpos X + 4503599627370496) with (Zpos (X + 4503599627370496)).
  cbv iota.
  assert (HX : (X + 4503599627370496)%positive = Pos.iter xO a dp).
  { apply Pos2Z.inj. rewrite Pos2Z.inj_add. unfold X.
    rewrite !iter_xO_Z, shl_Z, Ha, Z2Pos.id, HDp by lia.
    change 4503599627370496 with (2 ^ 52).
    replace (2 ^ 52) with (2 ^ (52 - D) * 2 ^ D)
      by (rewrite <- Z.pow_add_r by lia; f_equal; lia).
    replace (2 ^ (53 - D)) with (2 * 2 ^ (52 - D))
      by (rewrite <- Z.pow_succ_r by lia; f_equal; lia).
    ring. }
  rewrite HX, binary_round_shr.
  - f_equal; lia.
  - apply digits2_unique. rewrite Ha.
    pose proof (digits2_bounds (Z.to_pos n)) as [Hlo Hhi].
    rewrite Z2Pos.id in Hlo, Hhi by lia. fold dp in Hlo, Hhi.
    rewrite HDp in Hlo, Hhi.
    change (53 - 1) with 52.
    replace (2 ^ 52) with (2 * 2 ^ (D - 1) * 2 ^ (52 - D))
      by (rewrite <- Z.pow_succ_r, <- Z.pow_add_r by lia; f_equal; lia).
    replace (2 ^ 53) with (2 * 2 ^ D * 2 ^ (52 - D))
      by (rewrite <- Z.pow_succ_r, <- Z.pow_add_r by lia; f_equal; lia).
    nia.
  - lia.
Qed.

Lemma Prim2SF_add_zero x s m e :
  Prim2SF x = S754_finite s m e -> (x + 0)%float = x.
Proof.
  intros Hx. apply Prim2SF_inj. rewrite add_spec, Hx. reflexivity.
Qed.

Lemma value_int_to_double n :
  0 < n < 2 ^ 53 -> exists q, value (int_to_double n) = Some q /\ (q == inject_Z n)%Q.
Proof.
  intros Hn. pose proof (digits_range n 53 Hn) as HD.
  unfold value. rewrite Prim2SF_int_to_double by exact Hn.
  cbn [SF2Q cond_Zopp]. eexists; split; [reflexivity | ].
  set (D := digits n) in *.
  assert (Hpow : 0 < 2 ^ (53 - D)) by (apply Z.pow_pos_nonneg; lia).
  rewrite shl_Z, Z2Pos.id by lia.
  destruct (Z.leb_spec 0 (D - 53)) as [H0 | H0].
  - replace (D - 53) with 0 by lia. replace (53 - D) with 0 by lia.
    rewrite !Z.pow_0_r, !Z.mul_1_r. reflexivity.
  - unfold Qeq. cbn [Qnum Qden inject_Z].
    replace (- (D - 53)) with (53 - D) by lia.
    rewrite Z2Pos.id by lia. ring.
Qed.

Lemma value_add_half n :
  0 < n < 2 ^ 52 ->
  exists q, value (int_to_double n + 0.5)%float = Some q /\ (q == inject_Z n + (1 # 2))%Q.
Proof.
  intros Hn. pose proof (digits_range n 52 Hn) as HD.
  unfold value. rewrite Prim2SF_add_half by exact Hn.
  cbn [SF2Q cond_Zopp]. eexists; split; [reflexivity | ].
  set (D := digits n) in *.
  assert (Hpow : 0 < 2 ^ (52 - D)) by (apply Z.pow_pos_nonneg; lia).
  destruct (Z.leb_spec 0 (D - 53)) as [H0 | H0]; [lia | ].
  unfold Qeq, Qplus. cbn [Qnum Qden inject_Z].
  replace (- (D - 53)) with (Z.succ (52 - D)) by lia.
  rewrite Z.pow_succ_r by lia.
  rewrite !Z2Pos.id by nia.
  change (Zpos (1 * 2)) with 2. ring.
Qed.


(** Integer and fractional part of a double from its value. *)
Lemma parts_of_value x q n r :
  value x = Some q -> (q == inject_Z n + r)%Q -> (0 <= r)%Q -> (r < 1)%Q ->
  integer_part x = Some n /\ fractional_part x = Some (Qred r).
Proof.
  intros Hv Hq Hr0 Hr1. unfold integer_part, fractional_part. rewrite Hv.
  cbn [option_map].
  assert (Hfl : Qfloor q = n).
  { assert (H1 : n <= Qfloor q).
    { rewrite <- (Qfloor_Z n). apply Qfloor_resp_le. rewrite Hq.
      rewrite <- (Qplus_0_r (inject_Z n)) at 1. apply Qplus_le_r, Hr0. }
    assert (H2 : Qfloor q < n + 1).
    { rewrite Zlt_Qlt. apply Qle_lt_trans with q; [apply Qfloor_le | ].
      rewrite Hq, inject_Z_plus. apply Qplus_lt_r, Hr1. }
    lia. }
  split; [congruence | ].
  f_equal. apply Qred_complete. rewrite Hfl, Hq. ring.
Qed.

End DoubleFacts.

(** ** The single-element converter *)

Section ConverterFacts.

(** The replacement of the macros in lines 57-60: each macro name gives
    way to its unparenthesised replacement list. *)
Lemma preprocess_fraction_tokens :
  preprocess fraction_tokens
  = [ T_cast_double "hour"; T_div; T_int 24; T_add;
      T_cast_double "minute"; T_div; T_int 60; T_mul; T_int 24; T_add;
      T_cast_double "second"; T_div; T_int 60; T_mul; T_int 60; T_mul;
      T_int 24; T_add;
      T_cast_double "microsecond"; T_div; T_double 1e6%float; T_mul;
      T_int 60; T_mul; T_int 60; T_mul; T_int 24 ]%string.
Proof. reflexivity. Qed.

(** The expression of lines 57-60 evaluates, to a double, for all values of
    the locals: every operation in it has a double left operand. *)
Lemma fraction_evaluates hour minute second microsecond :
  fraction hour minute second microsecond
  = expanded_fraction hour minute second microsecond.
Proof. reflexivity. Qed.

(** Whatever the second, from 1 to 59, its term alone is a day or more. *)
Lemma fraction_seconds s :
  1 <= s <= 59 -> (1 <=? fraction 0 0 s 0)%float = true.
Proof.
  intros Hs.
  assert (H : forallb (fun s => (1 <=? fraction 0 0 s 0)%float) (seqZ 1 59)
              = true) by (vm_compute; reflexivity).
  rewrite forallb_forall in H. apply H.
  apply list_elem_of_In, elem_of_seqZ. lia.
Qed.

(** The ordinal of a date up to year 5867440, so of every Python datetime
    (whose years end at 9999), fits the [int] that [ymd_to_ord] returns. *)
Lemma ymd_to_ord_int y m d :
  valid_date y m d -> y <= 5867440 ->
  wrap_int (ymd_to_ord y m d) = ymd_to_ord y m d.
Proof.
  intros Hv Hy. pose proof (ymd_to_ord_bounds y m d Hv) as [Hlo Hhi].
  unfold wrap_int. change (2 ^ 31) with 2147483648.
  change (2 ^ 32) with 4294967296.
  rewrite Z.mod_small; lia.
Qed.

(** The body of [date2num] on an object that passes [PyDate_Check]. *)
Lemma date2num_date o :
  PyDate_Check o = true ->
  date2num o
  = (int_to_double (ymd_to_ord (dt_year o) (dt_month o) (dt_day o))
     + fraction (dt_hour o) (dt_minute o) (dt_second o) (dt_microsecond o))%float.
Proof.
  intros Hc. unfold date2num, date2num_reads. rewrite Hc. reflexivity.
Qed.

Lemma valid_timestamp_check o : valid_timestamp o -> PyDate_Check o = true.
Proof. intros (Ht & _). unfold PyDate_Check. rewrite Ht. reflexivity. Qed.

(** The ordinal of a valid timestamp is a positive integer below 2^52, so
    its conversion to double is exact. *)
Lemma valid_timestamp_ord o :
  valid_timestamp o ->
  0 < ymd_to_ord (dt_year o) (dt_month o) (dt_day o) < 2 ^ 52.
Proof.
  intros (_ & Hd & Hy & _).
  pose proof (ymd_to_ord_bounds _ _ _ Hd) as [Hlo Hhi].
  unfold INT_MAX in Hy. split; [lia | ].
  apply Z.le_lt_trans with (366 * 2147483647); [lia | reflexivity].
Qed.

(** C2. With the macros expanding without parentheses, what [date2num]
    computes for every date object is ordinal + hour/24 + (minute/60)*24 +
    (second/60)*60*24 + (microsecond/1e6)*60*60*24; and for some valid
    timestamp, one with second = 1, the added contribution is at least 1,
    as is the term of every second from 1 to 59. *)
Theorem date2num_expanded :
  (forall o,
     PyDate_Check o = true ->
     date2num o
     = (int_to_double (ymd_to_ord (dt_year o) (dt_month o) (dt_day o))
        + (int_to_double (dt_hour o) / 24
           + int_to_double (dt_minute o) / 60 * 24
           + int_to_double (dt_second o) / 60 * 60 * 24
           + int_to_double (dt_microsecond o) / 1e6 * 60 * 60 * 24))%float)
  /\ (exists o,
        valid_timestamp o /\ 1 <= dt_second o /\
        (1 <=? fraction (dt_hour o) (dt_minute o) (dt_second o)
                 (dt_microsecond o))%float = true)
  /\ (forall s, 1 <= s <= 59 -> (1 <=? fraction 0 0 s 0)%float = true).
Proof.
  split; [ | split].
  - intros o Hc. rewrite (date2num_date o Hc), fraction_evaluates.
    reflexivity.
  - exists (datetime 2000 1 1 0 0 1 0).
    split; [valid_now | split; [cbn; lia | reflexivity]].
  - exact fraction_seconds.
Qed.

Lemma date2num_expanded_witness :
  date2num (datetime 2000 1 1 0 0 1 0) = 730144%float.
Proof.
  rewrite (proj1 date2num_expanded (datetime 2000 1 1 0 0 1 0)).
  - reflexivity.
  - reflexivity.
Defined.

(** C1. At 2000-01-01T00:01:00 the converter does not return the ordinal
    plus hour/24 + minute/1440 + second/86400 + microsecond/86400000000:
    the minute contributes (1/60)*24 = 0.4 of a day where the formula has
    1/1440. *)
Theorem date2num_minute_term :
  let o := datetime 2000 1 1 0 1 0 0 in
  valid_timestamp o
  /\ date2num o = (730120 + 1 / 60 * 24)%float
  /\ to_day_number o = (730120 + 1 / 1440)%float
  /\ (0.375 <? date2num o - to_day_number o)%float = true
  /\ date2num o <> to_day_number o.
Proof.
  cbv zeta. split; [valid_now | ].
  split; [reflexivity | split; [reflexivity | split; [reflexivity | ]]].
  intros Heq.
  assert (Hlt : (to_day_number (datetime 2000 1 1 0 1 0 0)
                 <? date2num (datetime 2000 1 1 0 1 0 0))%float = true)
    by reflexivity.
  rewrite Heq in Hlt. vm_compute in Hlt. discriminate.
Qed.

(** The formula of section 4.2 itself, in binary64: one microsecond before
    midnight of 2000-01-01 it rounds to the next integer. *)
Lemma to_day_number_rounds_up :
  to_day_number (datetime 2000 1 1 23 59 59 999999) = 730121%float
  /\ ymd_to_ord 2000 1 1 = 730120.
Proof. split; reflexivity. Qed.

(** C8. At 2000-01-01T00:00:01 the integer part of the day number is not
    the ordinal of the date: the second contributes (1/60)*60*24 = 24 days,
    and the result is 730144 where the ordinal is 730120. *)
Theorem date2num_second_term :
  let o := datetime 2000 1 1 0 0 1 0 in
  valid_timestamp o
  /\ ymd_to_ord (dt_year o) (dt_month o) (dt_day o) = 730120
  /\ fraction (dt_hour o) (dt_minute o) (dt_second o) (dt_microsecond o)
     = 24%float
  /\ date2num o = 730144%float
  /\ integer_part (date2num o) = Some 730144
  /\ fractional_part (date2num o) = Some 0%Q.
Proof.
  cbv zeta. split; [valid_now | ].
  repeat split; reflexivity.
Qed.

(** C9. For a valid timestamp at 12:00:00.000000 the day number is the
    ordinal plus one half exactly: its fractional part is 1/2; at
    00:00:00.000000 it is the ordinal exactly: its fractional part is 0. *)
Theorem date2num_noon_midnight o :
  valid_timestamp o ->
  let n := ymd_to_ord (dt_year o) (dt_month o) (dt_day o) in
  (dt_hour o = 12 /\ dt_minute o = 0 /\ dt_second o = 0 /\
   dt_microsecond o = 0 ->
   date2num o = (int_to_double n + 0.5)%float
   /\ integer_part (date2num o) = Some n
   /\ fractional_part (date2num o) = Some (1 # 2))
  /\ (dt_hour o = 0 /\ dt_minute o = 0 /\ dt_second o = 0 /\
      dt_microsecond o = 0 ->
      date2num o = int_to_double n
      /\ integer_part (date2num o) = Some n
      /\ fractional_part (date2num o) = Some 0%Q).
Proof.
  intros Hv n.
  pose proof (valid_timestamp_ord o Hv) as Hn. fold n in Hn.
  assert (Hn53 : 0 < n < 2 ^ 53).
  { split; [lia | ]. apply Z.lt_trans with (2 ^ 52); [tauto | reflexivity]. }
  rewrite (date2num_date o (valid_timestamp_check o Hv)). fold n.
  split; intros (-> & -> & -> & ->).
  - change (fraction 12 0 0 0) with 0.5%float.
    split; [reflexivity | ].
    destruct (value_add_half n Hn) as (q & Hq & Hqe).
    apply (parts_of_value _ q n (1 # 2) Hq Hqe); reflexivity || discriminate.
  - change (fraction 0 0 0 0) with 0%float.
    rewrite (Prim2SF_add_zero _ _ _ _ (Prim2SF_int_to_double n Hn53)).
    split; [reflexivity | ].
    destruct (value_int_to_double n Hn53) as (q & Hq & Hqe).
    apply (parts_of_value _ q n 0 Hq); [ | discriminate | reflexivity].
    rewrite Hqe. ring.
Qed.

Lemma date2num_noon_midnight_witness :
  fractional_part (date2num (datetime 2000 1 2 12 0 0 0)) = Some (1 # 2)
  /\ fractional_part (date2num (datetime 2000 1 1 0 0 0 0)) = Some 0%Q.
Proof.
  assert (Hn : valid_timestamp (datetime 2000 1 2 12 0 0 0)) by valid_now.
  assert (Hm : valid_timestamp (datetime 2000 1 1 0 0 0 0)) by valid_now.
  split.
  - apply (proj1 (date2num_noon_midnight _ Hn)). repeat split; reflexivity.
  - apply (proj2 (date2num_noon_midnight _ Hm)). repeat split; reflexivity.
Defined.

(** C10. On an object that is not a date, [date2num] returns the sentinel
    -999.0, signals nothing, and applies none of the field accessors. *)
Theorem date2num_not_a_date o :
  PyDate_Check o = false ->
  date2num o = (-999)%float /\ fields_read o = [].
Proof.
  intros Hc. unfold date2num, fields_read, date2num_reads.
  rewrite Hc. split; reflexivity.
Qed.

Lemma date2num_not_a_date_witness :
  date2num (not_a_date 2000 1 1 12 30 15 500000) = (-999)%float
  /\ fields_read (not_a_date 2000 1 1 12 30 15 500000) = [].
Proof.
  apply (date2num_not_a_date (not_a_date 2000 1 1 12 30 15 500000)).
  reflexivity.
Defined.

(** On a date object all seven accessors are applied, in the order of
    lines 48-54. *)
Lemma fields_read_date o :
  PyDate_Check o = true ->
  fields_read o
  = [ PyDateTime_DATE_GET_MICROSECOND; PyDateTime_DATE_GET_SECOND;
      PyDateTime_DATE_GET_MINUTE; PyDateTime_DATE_GET_HOUR;
      PyDateTime_GET_DAY; PyDateTime_GET_MONTH; PyDateTime_GET_YEAR ].
Proof.
  intros Hc. unfold fields_read, date2num_reads. rewrite Hc. reflexivity.
Qed.

End ConverterFacts.

(** ** The batch driver *)

Section BatchFacts.

(** The loop invariant: once the iterations from [i] on are done, the
    buffer holds its first [i] elements as they were and, from [i] on, the
    day numbers of the inputs. *)
Lemma loop_spec n : forall i (inval : list PyDateTime_DateTime)
    (outval : list double),
  (i + n = length inval)%nat ->
  length outval = length inval ->
  loop n i inval outval = Some (take i outval ++ (date2num <$> drop i inval)).
Proof.
  induction n as [ | n IH]; intros i inval outval Hi Hlen.
  - cbn [loop]. rewrite drop_ge, take_ge by lia.
    rewrite app_nil_r. reflexivity.
  - cbn [loop].
    destruct (lookup_lt_is_Some_2 inval i) as [o Ho]; [lia | ].
    rewrite Ho. case_decide; [ | lia].
    rewrite IH by (rewrite ?length_insert; lia).
    rewrite (take_S_r _ _ (date2num o)) by (apply list_lookup_insert_eq; lia).
    rewrite take_insert_ge by lia.
    rewrite (drop_S _ _ _ Ho), fmap_cons, <- app_assoc. reflexivity.
Qed.

(** With a length beyond the arrays the loop leaves them. *)
Lemma loop_overrun n : forall i (inval : list PyDateTime_DateTime)
    (outval : list double),
  (length inval < i + n)%nat -> (i <= length inval)%nat ->
  length outval = length inval ->
  loop n i inval outval = None.
Proof.
  induction n as [ | n IH]; intros i inval outval Hn Hi Hlen; [lia | ].
  cbn [loop]. destruct (inval !! i) as [o | ] eqn:Ho; [ | reflexivity].
  apply lookup_lt_Some in Ho.
  case_decide; [ | reflexivity].
  apply IH; rewrite ?length_insert; lia.
Qed.

(** With the arrays in place and the bound set to their length, the loop
    computes the day numbers of the inputs, in order. *)
Lemma run_loop_all (inval : list PyDateTime_DateTime)
    (outval : list double) :
  length outval = length inval ->
  run_loop (Z.of_nat (length inval)) inval outval
  = Some (date2num <$> inval).
Proof.
  intros Hlen. unfold run_loop.
  rewrite Nat2Z.id, loop_spec by lia.
  rewrite take_0, drop_0. reflexivity.
Qed.

(** With no parameter name, the parser accepts no call of a format that
    has a unit: a call with an argument has too many, a call without one
    leaves the unit over. *)
Lemma parse_without_names args kwargs check units :
  PyArg_ParseTupleAndKeywords args kwargs (check :: units) [] = false.
Proof.
  unfold PyArg_ParseTupleAndKeywords.
  destruct (length [] <? length args + length kwargs)%nat; [reflexivity | ].
  cbn [convert_args length Nat.leb andb]. reflexivity.
Qed.

(** The parse of lines 82-84 fails on every call, so line 85 is where the
    function returns. *)
Lemma date2num_common_NULL args kwargs inval_p_len inval outval fieldx :
  date2num_common args kwargs inval_p_len inval outval fieldx = Returned_NULL.
Proof.
  unfold date2num_common, format_units, kwlist.
  rewrite parse_without_names. reflexivity.
Qed.

(** C4. The driver returns no sequence of doubles: on every call, with an
    array of N timestamps as its argument, N = 0 included, the parse of
    lines 82-84 fails (the format has a unit and the keyword list no name)
    and the function returns NULL with an exception set, before the loop
    of lines 100-102. *)
Theorem date2num_common_returns_NULL args kwargs inval_p_len inval outval
    fieldx :
  PyArg_ParseTupleAndKeywords args kwargs format_units kwlist = false
  /\ date2num_common args kwargs inval_p_len inval outval fieldx
     = Returned_NULL
  /\ date2num_common [Py_ndarray []] [] inval_p_len inval outval fieldx
     = Returned_NULL
  /\ date2num_common
       [Py_ndarray [datetime 2000 1 1 0 0 0 0; datetime 2000 1 2 12 0 0 0;
                    datetime 1 1 1 0 0 0 0]]
       [] inval_p_len inval outval fieldx
     = Returned_NULL.
Proof.
  split; [apply parse_without_names | ].
  repeat split; apply date2num_common_NULL.
Qed.



End BatchFacts.

(** ** Signs of the results

    Every operation of lines 55-60 keeps a double that is neither negative
    nor a NaN in that class: the roundings of [SpecFloat] never turn a
    non-negative mantissa into a negative one. *)

Section SignFacts.

Lemma shr_1_nonneg mrs : 0 <= shr_m mrs -> 0 <= shr_m (shr_1 mrs).
Proof.
  destruct mrs as [m r s]. cbn [shr_m]. intros Hm.
  destruct m as [ | [p | p | ] | p]; cbn; lia.
Qed.

Lemma iter_shr_1_nonneg d mrs :
  0 <= shr_m mrs -> 0 <= shr_m (SpecFloat.iter_pos shr_1 d mrs).
Proof.
  rewrite iter_pos_iter. intros Hm.
  apply (Pos.iter_invariant d _ shr_1 (fun x => 0 <= shr_m x)); [ | exact Hm].
  intros x. apply shr_1_nonneg.
Qed.

Lemma shr_fexp_nonneg m e l :
  0 <= m -> 0 <= shr_m (fst (shr_fexp prec emax m e l)).
Proof.
  intros Hm. unfold shr_fexp, shr.
  assert (H0 : 0 <= shr_m (shr_record_of_loc m l))
    by (destruct l as [ | []]; exact Hm).
  destruct (fexp prec emax (Zdigits2 m + e) - e) as [ | p | p]; cbn [fst];
    [exact H0 | apply iter_shr_1_nonneg, H0 | exact H0].
Qed.

Lemma round_nearest_even_nonneg mx lx :
  0 <= mx -> 0 <= round_nearest_even mx lx.
Proof.
  intros Hm. unfold round_nearest_even.
  destruct lx as [ | []]; try destruct (Z.even mx); lia.
Qed.

Lemma binary_round_aux_nonneg m e l :
  0 <= m -> nonneg_sf (binary_round_aux prec emax false m e l) = true.
Proof.
  intros Hm. unfold binary_round_aux.
  pose proof (shr_fexp_nonneg m e l Hm) as H1.
  destruct (shr_fexp prec emax m e l) as [mrs' e']. cbn [fst] in H1.
  pose proof (shr_fexp_nonneg _ e' loc_Exact
                (round_nearest_even_nonneg _ (loc_of_shr_record mrs') H1)) as H2.
  destruct (shr_fexp prec emax _ e' loc_Exact) as [mrs'' e'']. cbn [fst] in H2.
  destruct (shr_m mrs'') as [ | p | p]; [reflexivity | | lia].
  destruct (e'' <=? emax - prec); reflexivity.
Qed.

Lemma binary_normalize_nonneg m e :
  0 <= m -> nonneg_sf (binary_normalize prec emax m e false) = true.
Proof.
  intros Hm. destruct m as [ | p | p]; [reflexivity | | lia].
  unfold binary_normalize, binary_round.
  destruct (shl_align p e _) as [mz ez].
  apply binary_round_aux_nonneg. lia.
Qed.

Lemma SFadd_nonneg x y :
  nonneg_sf x = true -> nonneg_sf y = true -> nonneg_sf (SF64add x y) = true.
Proof.
  destruct x as [[] | [] | | [] mx ex], y as [[] | [] | | [] my ey];
    cbn; try discriminate; try reflexivity.
  intros _ _. apply binary_normalize_nonneg. lia.
Qed.

Lemma SFmul_nonneg x my ey :
  nonneg_sf x = true ->
  nonneg_sf (SF64mul x (S754_finite false my ey)) = true.
Proof.
  destruct x as [[] | [] | | [] mx ex]; cbn; try discriminate; try reflexivity.
  intros _. apply binary_round_aux_nonneg. lia.
Qed.

Lemma SFdiv_nonneg x my ey :
  nonneg_sf x = true ->
  nonneg_sf (SF64div x (S754_finite false my ey)) = true.
Proof.
  destruct x as [[] | [] | | [] mx ex]; cbn -[SFdiv_core_binary];
    try discriminate; try reflexivity.
  intros _. unfold SFdiv_core_binary.
  set (m' := match _ with Zpos _ => _ | _ => _ end).
  assert (Hm' : 0 <= m').
  { unfold m'. destruct (_ - _ - _) as [ | p | p]; [lia | | lia].
    apply Z.shiftl_nonneg. lia. }
  pose proof (Z.div_pos m' (Zpos my) Hm' ltac:(lia)) as Hq.
  unfold Z.div in Hq.
  destruct (Z.div_eucl m' (Zpos my)) as [q r]. cbn [fst] in Hq.
  apply binary_round_aux_nonneg, Hq.
Qed.


Lemma nonneg_int_to_double n : 0 <= n -> nonneg (int_to_double n) = true.
Proof.
  intros Hn. unfold nonneg, int_to_double.
  destruct (Z.ltb_spec n 0) as [ | _]; [lia | ].
  rewrite of_uint63_spec. apply binary_normalize_nonneg.
  apply Uint63.to_Z_bounded.
Qed.

Lemma nonneg_add x y :
  nonneg x = true -> nonneg y = true -> nonneg (x + y)%float = true.
Proof. unfold nonneg. rewrite add_spec. apply SFadd_nonneg. Qed.

Lemma nonneg_mul x c m e :
  Prim2SF c = S754_finite false m e ->
  nonneg x = true -> nonneg (x * c)%float = true.
Proof. unfold nonneg. intros Hc. rewrite mul_spec, Hc. apply SFmul_nonneg. Qed.

Lemma nonneg_div x c m e :
  Prim2SF c = S754_finite false m e ->
  nonneg x = true -> nonneg (x / c)%float = true.
Proof. unfold nonneg. intros Hc. rewrite div_spec, Hc. apply SFdiv_nonneg. Qed.

Lemma nonneg_fraction hour minute second microsecond :
  0 <= hour -> 0 <= minute -> 0 <= second -> 0 <= microsecond ->
  nonneg (fraction hour minute second microsecond) = true.
Proof.
  intros Hh Hm Hs Hu. rewrite fraction_evaluates. unfold expanded_fraction.
  repeat first
    [ apply nonneg_add
    | eapply nonneg_mul; [reflexivity | ]
    | eapply nonneg_div; [reflexivity | ]
    | apply nonneg_int_to_double; assumption ].
Qed.

(** Adding [+0] changes nothing but the sign of [-0]. *)
Lemma add_zero_nonneg x : nonneg x = true -> (x + 0)%float = x.
Proof.
  unfold nonneg. intros Hx. apply Prim2SF_inj. rewrite add_spec.
  change (Prim2SF 0) with (S754_zero false).
  destruct (Prim2SF x) as [[] | [] | | [] m e]; try discriminate; reflexivity.
Qed.

Lemma nonneg_date2num o :
  PyDate_Check o = true ->
  0 <= ymd_to_ord (dt_year o) (dt_month o) (dt_day o) ->
  0 <= dt_hour o -> 0 <= dt_minute o -> 0 <= dt_second o ->
  0 <= dt_microsecond o ->
  nonneg (date2num o) = true.
Proof.
  intros Hc Ho Hh Hm Hs Hu. rewrite (date2num_date o Hc).
  apply nonneg_add; [apply nonneg_int_to_double, Ho | ].
  apply nonneg_fraction; assumption.
Qed.

(** X5. For a date object whose ordinal and time fields are not negative,
    as for every valid timestamp, the result is neither negative nor a NaN:
    it is never the sentinel -999.0 that stands for a failed type check. *)
Theorem date2num_not_negative o :
  PyDate_Check o = true ->
  0 <= ymd_to_ord (dt_year o) (dt_month o) (dt_day o) ->
  0 <= dt_hour o -> 0 <= dt_minute o -> 0 <= dt_second o ->
  0 <= dt_microsecond o ->
  (date2num o <? 0)%float = false
  /\ date2num o <> (-999)%float
  /\ Prim2SF (date2num o) <> S754_nan.
Proof.
  intros Hc Ho Hh Hm Hs Hu.
  pose proof (nonneg_date2num o Hc Ho Hh Hm Hs Hu) as Hn.
  split; [ | split].
  - rewrite ltb_spec. unfold nonneg in Hn.
    destruct (Prim2SF (date2num o)) as [[] | [] | | [] m e];
      try discriminate; reflexivity.
  - intros Heq. rewrite Heq in Hn. discriminate Hn.
  - intros Heq. unfold nonneg in Hn. rewrite Heq in Hn. discriminate Hn.
Qed.

Lemma date2num_not_negative_witness :
  date2num (datetime 2000 1 1 12 30 15 500000) <> (-999)%float.
Proof.
  apply (date2num_not_negative (datetime 2000 1 1 12 30 15 500000));
    [reflexivity | vm_compute; discriminate .. ].
Defined.

(** X6. On a whole hour (minute, second and microsecond zero) the three
    terms with the unparenthesised macros vanish: the result is the ordinal
    plus hour/24, in doubles, which is also what the formula of section 4.2
    gives. *)
Theorem date2num_whole_hours o :
  PyDate_Check o = true ->
  dt_minute o = 0 -> dt_second o = 0 -> dt_microsecond o = 0 ->
  date2num o = to_day_number o
  /\ (0 <= dt_hour o ->
      date2num o
      = (int_to_double (ymd_to_ord (dt_year o) (dt_month o) (dt_day o))
         + int_to_double (dt_hour o) / 24)%float).
Proof.
  intros Hc Hm Hs Hu. rewrite (date2num_date o Hc). unfold to_day_number.
  rewrite Hm, Hs, Hu. split; [reflexivity | ].
  intros Hh. rewrite fraction_evaluates. unfold expanded_fraction.
  change (int_to_double 0 / 60 * 24)%float with 0%float.
  change (int_to_double 0 / 60 * 60 * 24)%float with 0%float.
  change (int_to_double 0 / 1e6 * 60 * 60 * 24)%float with 0%float.
  assert (HH : nonneg (int_to_double (dt_hour o) / 24)%float = true)
    by (eapply nonneg_div; [reflexivity | apply nonneg_int_to_double, Hh]).
  rewrite !(add_zero_nonneg _ HH). reflexivity.
Qed.

Lemma date2num_whole_hours_witness :
  date2num (datetime 2000 1 1 7 0 0 0)
  = (730120 + 7 / 24)%float.
Proof.
  destruct (date2num_whole_hours (datetime 2000 1 1 7 0 0 0))
    as [_ H]; [reflexivity .. | ].
  rewrite H; [reflexivity | vm_compute; discriminate].
Defined.

End SignFacts.

(** ** Midnights

    At midnight the day number is the ordinal itself, an integer below
    2^53: conversion, comparison and subtraction of such doubles are
    exact. *)

Section MidnightFacts.

(** The day number at midnight is the ordinal, converted. *)
Lemma date2num_midnight o :
  valid_timestamp o ->
  dt_hour o = 0 -> dt_minute o = 0 -> dt_second o = 0 ->
  dt_microsecond o = 0 ->
  date2num o = int_to_double (ymd_to_ord (dt_year o) (dt_month o) (dt_day o)).
Proof.
  intros Hv Hh Hm Hs Hu.
  pose proof (valid_timestamp_ord o Hv) as Hn.
  rewrite (date2num_date o (valid_timestamp_check o Hv)), Hh, Hm, Hs, Hu.
  change (fraction 0 0 0 0) with 0%float.
  eapply Prim2SF_add_zero, Prim2SF_int_to_double.
  split; [lia | ]. apply Z.lt_trans with (2 ^ 52); [tauto | reflexivity].
Qed.

Lemma digits_le n1 n2 :
  0 < n1 -> n1 <= n2 -> digits n1 <= digits n2.
Proof.
  intros H1 H12. unfold digits.
  pose proof (digits2_bounds (Z.to_pos n1)) as [Hlo1 _].
  pose proof (digits2_bounds (Z.to_pos n2)) as [_ Hhi2].
  rewrite Z2Pos.id in Hlo1, Hhi2 by lia.
  destruct (Z.le_gt_cases (Zpos (digits2_pos (Z.to_pos n1)))
              (Zpos (digits2_pos (Z.to_pos n2)))) as [ | Hgt]; [assumption | ].
  assert (2 ^ Zpos (digits2_pos (Z.to_pos n2))
          <= 2 ^ (Zpos (digits2_pos (Z.to_pos n1)) - 1))
    by (apply Z.pow_le_mono_r; lia).
  lia.
Qed.

(** Conversion of integers below 2^53 preserves the order, in double
    comparison. *)
Lemma int_to_double_ltb n1 n2 :
  0 < n1 < 2 ^ 53 -> 0 < n2 < 2 ^ 53 ->
  (int_to_double n1 <? int_to_double n2)%float = (n1 <? n2).
Proof.
  intros H1 H2.
  pose proof (digits_range n1 53 H1) as HD1.
  pose proof (digits_range n2 53 H2) as HD2.
  rewrite ltb_spec, !Prim2SF_int_to_double by assumption.
  unfold SFltb, SFcompare.
  destruct (Z.compare_spec (digits n1 - 53) (digits n2 - 53)) as [He | He | He].
  - assert (HD : digits n1 = digits n2) by lia. rewrite HD.
    change (Pos.compare_cont Eq ?a ?b) with (Pos.compare a b).
    rewrite Pos2Z.inj_compare, !shl_Z, !Z2Pos.id by lia.
    assert (Hp : 0 < 2 ^ (53 - digits n2)) by (apply Z.pow_pos_nonneg; lia).
    destruct (Z.compare_spec (n1 * 2 ^ (53 - digits n2))
                (n2 * 2 ^ (53 - digits n2))),
      (Z.ltb_spec n1 n2); try reflexivity; nia.
  - destruct (Z.ltb_spec n1 n2) as [ | Hge]; [reflexivity | ].
    pose proof (digits_le n2 n1 ltac:(lia) Hge). lia.
  - destruct (Z.ltb_spec n1 n2) as [Hlt | ]; [ | reflexivity].
    pose proof (digits_le n1 n2 ltac:(lia) ltac:(lia)). lia.
Qed.

(** X7. On midnights the converter preserves the order of the dates: the
    day number of one is below that of the other, in double comparison,
    exactly when its ordinal is. *)
Theorem date2num_midnight_order o1 o2 :
  valid_timestamp o1 -> valid_timestamp o2 ->
  dt_hour o1 = 0 /\ dt_minute o1 = 0 /\ dt_second o1 = 0 /\
  dt_microsecond o1 = 0 ->
  dt_hour o2 = 0 /\ dt_minute o2 = 0 /\ dt_second o2 = 0 /\
  dt_microsecond o2 = 0 ->
  (date2num o1 <? date2num o2)%float
  = (ymd_to_ord (dt_year o1) (dt_month o1) (dt_day o1)
     <? ymd_to_ord (dt_year o2) (dt_month o2) (dt_day o2)).
Proof.
  intros Hv1 Hv2 (Hh1 & Hm1 & Hs1 & Hu1) (Hh2 & Hm2 & Hs2 & Hu2).
  rewrite (date2num_midnight o1), (date2num_midnight o2) by assumption.
  pose proof (valid_timestamp_ord o1 Hv1) as [Hlo1 Hhi1].
  pose proof (valid_timestamp_ord o2 Hv2) as [Hlo2 Hhi2].
  apply int_to_double_ltb; (split; [assumption | ]);
    (eapply Z.lt_trans; [eassumption | reflexivity]).
Qed.

Lemma date2num_midnight_order_witness :
  (date2num (datetime 1999 12 31 0 0 0 0)
   <? date2num (datetime 2000 1 1 0 0 0 0))%float = true.
Proof.
  rewrite (date2num_midnight_order (datetime 1999 12 31 0 0 0 0)
             (datetime 2000 1 1 0 0 0 0));
    [reflexivity | valid_now | valid_now
    | repeat split; reflexivity | repeat split; reflexivity].
Defined.


Lemma shl_align_fst m e e' :
  e' <= e -> Zpos (fst (shl_align m e e')) = Zpos m * 2 ^ (e - e').
Proof.
  intros He. unfold shl_align.
  destruct (e' - e) as [ | d | d] eqn:Hd; cbn [fst].
  - replace (e - e') with 0 by lia. lia.
  - lia.
  - rewrite iter_xO_Z. f_equal. f_equal. lia.
Qed.

(** Rounding [a * 2^t * 2^e] with [a] of at most 53 digits is exact. *)
Lemma binary_round_exact s M e a t :
  Zpos M = Zpos a * 2 ^ t -> 0 <= t ->
  Zpos (digits2_pos a) <= 53 ->
  -1074 <= e + t + Zpos (digits2_pos a) - 53 <= 971 ->
  binary_round prec emax s M e
  = S754_finite s (shl a (53 - Zpos (digits2_pos a)))
      (e + t + Zpos (digits2_pos a) - 53).
Proof.
  intros HM Ht Ha He.
  set (dA := Zpos (digits2_pos a)) in *.
  assert (HMs : M = shl a t) by (apply Pos2Z.inj; rewrite shl_Z by lia; exact HM).
  assert (HdM : Zpos (digits2_pos M) = dA + t)
    by (rewrite HMs, digits2_shl by lia; reflexivity).
  destruct (Z.le_gt_cases (dA + t) 53) as [Hle | Hgt].
  - rewrite binary_round_shl by lia. rewrite HdM. f_equal; [ | lia].
    apply Pos2Z.inj. rewrite !shl_Z, HM by lia.
    rewrite <- Z.mul_assoc, <- Z.pow_add_r by lia. f_equal. f_equal. lia.
  - set (k := dA + t - 53).
    assert (HM' : M = Pos.iter xO (shl a (53 - dA)) (Z.to_pos k)).
    { apply Pos2Z.inj. rewrite iter_xO_Z, shl_Z, HM, Z2Pos.id by lia.
      rewrite <- Z.mul_assoc, <- Z.pow_add_r by lia. f_equal. f_equal. lia. }
    rewrite HM', binary_round_shr.
    + f_equal. rewrite Z2Pos.id by lia. lia.
    + rewrite digits2_shl by lia. fold dA. lia.
    + rewrite Z2Pos.id by lia. lia.
Qed.

Lemma Prim2SF_int_to_double_signed n :
  n <> 0 -> Z.abs n < 2 ^ 53 ->
  Prim2SF (int_to_double n)
  = S754_finite (n <? 0) (shl (Z.to_pos (Z.abs n)) (53 - digits (Z.abs n)))
      (digits (Z.abs n) - 53).
Proof.
  intros Hn Ha. destruct (Z.ltb_spec n 0) as [Hneg | Hpos].
  - unfold int_to_double. destruct (Z.ltb_spec n 0) as [_ | ]; [ | lia].
    rewrite opp_spec.
    assert (H : Prim2SF (int_to_double (- n))
                = S754_finite false (shl (Z.to_pos (- n)) (53 - digits (- n)))
                    (digits (- n) - 53))
      by (apply Prim2SF_int_to_double; lia).
    unfold int_to_double in H.
    destruct (Z.ltb_spec (- n) 0) as [ | _]; [lia | ].
    rewrite H. replace (Z.abs n) with (- n) by lia. reflexivity.
  - replace (Z.abs n) with n by lia. apply Prim2SF_int_to_double. lia.
Qed.

(** Subtraction of converted integers below 2^53 is exact. *)
Lemma int_to_double_sub n1 n2 :
  0 < n1 < 2 ^ 53 -> 0 < n2 < 2 ^ 53 ->
  (int_to_double n2 - int_to_double n1)%float = int_to_double (n2 - n1).
Proof.
  intros H1 H2. apply Prim2SF_inj.
  pose proof (digits_range n1 53 H1) as HD1.
  pose proof (digits_range n2 53 H2) as HD2.
  rewrite sub_spec, !Prim2SF_int_to_double by assumption.
  unfold SF64sub, SFsub. cbn [cond_Zopp].
  set (D1 := digits n1) in *. set (D2 := digits n2) in *.
  set (ez := Z.min (D2 - 53) (D1 - 53)).
  rewrite !shl_align_fst, !shl_Z, !Z2Pos.id by lia.
  assert (Hz : n2 * 2 ^ (53 - D2) * 2 ^ (D2 - 53 - ez)
               - n1 * 2 ^ (53 - D1) * 2 ^ (D1 - 53 - ez)
               = (n2 - n1) * 2 ^ (- ez)).
  { rewrite <- !Z.mul_assoc, <- !Z.pow_add_r by lia.
    replace (53 - D2 + (D2 - 53 - ez)) with (- ez) by lia.
    replace (53 - D1 + (D1 - 53 - ez)) with (- ez) by lia. ring. }
  rewrite Hz. clear Hz.
  assert (Hp : 0 < 2 ^ (- ez)) by (apply Z.pow_pos_nonneg; lia).
  destruct (Z.eq_dec n2 n1) as [-> | Hne].
  - rewrite Z.sub_diag. reflexivity.
  - assert (Habs : 0 < Z.abs (n2 - n1) < 2 ^ 53) by lia.
    pose proof (digits_range _ 53 Habs) as HDd.
    rewrite Prim2SF_int_to_double_signed by lia.
    unfold binary_normalize.
    destruct ((n2 - n1) * 2 ^ (- ez)) as [ | M | M] eqn:HM; [nia | | ].
    + assert (n1 < n2) by nia.
      destruct (Z.ltb_spec (n2 - n1) 0) as [ | _]; [lia | ].
      rewrite (binary_round_exact false M ez (Z.to_pos (Z.abs (n2 - n1))) (- ez)).
      * fold (digits (Z.abs (n2 - n1))). f_equal. lia.
      * rewrite Z2Pos.id by lia. lia.
      * lia.
      * exact (proj2 HDd).
      * fold (digits (Z.abs (n2 - n1))). lia.
    + assert (n2 < n1) by nia.
      destruct (Z.ltb_spec (n2 - n1) 0) as [_ | ]; [ | lia].
      rewrite (binary_round_exact true M ez (Z.to_pos (Z.abs (n2 - n1))) (- ez)).
      * fold (digits (Z.abs (n2 - n1))). f_equal. lia.
      * rewrite Z2Pos.id by lia. lia.
      * lia.
      * exact (proj2 HDd).
      * fold (digits (Z.abs (n2 - n1))). lia.
Qed.

(** X8. The difference of the day numbers of two midnights, computed in
    doubles, is exactly the number of days from the one date to the
    other. *)
Theorem date2num_midnight_difference o1 o2 :
  valid_timestamp o1 -> valid_timestamp o2 ->
  dt_hour o1 = 0 /\ dt_minute o1 = 0 /\ dt_second o1 = 0 /\
  dt_microsecond o1 = 0 ->
  dt_hour o2 = 0 /\ dt_minute o2 = 0 /\ dt_second o2 = 0 /\
  dt_microsecond o2 = 0 ->
  (date2num o2 - date2num o1)%float
  = int_to_double (ymd_to_ord (dt_year o2) (dt_month o2) (dt_day o2)
                   - ymd_to_ord (dt_year o1) (dt_month o1) (dt_day o1)).
Proof.
  intros Hv1 Hv2 (Hh1 & Hm1 & Hs1 & Hu1) (Hh2 & Hm2 & Hs2 & Hu2).
  rewrite (date2num_midnight o1), (date2num_midnight o2) by assumption.
  pose proof (valid_timestamp_ord o1 Hv1) as [Hlo1 Hhi1].
  pose proof (valid_timestamp_ord o2 Hv2) as [Hlo2 Hhi2].
  apply int_to_double_sub; (split; [assumption | ]);
    (eapply Z.lt_trans; [eassumption | reflexivity]).
Qed.

Lemma date2num_midnight_difference_witness :
  (date2num (datetime 2000 3 1 0 0 0 0)
   - date2num (datetime 2000 2 1 0 0 0 0))%float = 29%float.
Proof.
  rewrite (date2num_midnight_difference (datetime 2000 2 1 0 0 0 0)
             (datetime 2000 3 1 0 0 0 0));
    [reflexivity | valid_now | valid_now
    | repeat split; reflexivity | repeat split; reflexivity].
Defined.

End MidnightFacts.

(** ** The macros *)

Section MoreFacts.

(** *** The preprocessor *)






(** X11. Each macro of lines 16-23, standing alone, has the value its
    name promises; as the divisor of any double x, a macro defined as a
    product divides by its first factor only and multiplies by the rest. *)
Theorem macros_as_divisor (x : double) :
  let alone name := eval [] (preprocess [T_id name]) in
  let under name := eval [] (preprocess [T_double x; T_div; T_id name]) in
  (alone "HOURS_PER_DAY"%string = Some (V_int 24)
   /\ under "HOURS_PER_DAY"%string = Some (V_double (x / 24)%float))
  /\ (alone "MINUTES_PER_DAY"%string = Some (V_int 1440)
      /\ under "MINUTES_PER_DAY"%string = Some (V_double (x / 60 * 24)%float))
  /\ (alone "SECONDS_PER_DAY"%string = Some (V_int 86400)
      /\ under "SECONDS_PER_DAY"%string = Some (V_double (x / 60 * 60 * 24)%float))
  /\ (alone "MUSECONDS_PER_DAY"%string = Some (V_double 86400000000%float)
      /\ under "MUSECONDS_PER_DAY"%string
         = Some (V_double (x / 1e6 * 60 * 60 * 24)%float))
  /\ (alone "SEC_PER_MIN"%string = Some (V_int 60)
      /\ under "SEC_PER_MIN"%string = Some (V_double (x / 60)%float))
  /\ (alone "SEC_PER_HOUR"%string = Some (V_int 3600)
      /\ under "SEC_PER_HOUR"%string = Some (V_double (x / 3600)%float))
  /\ (alone "SEC_PER_DAY"%string = Some (V_int 86400)
      /\ under "SEC_PER_DAY"%string = Some (V_double (x / 3600 * 24)%float))
  /\ (alone "SEC_PER_WEEK"%string = Some (V_int 604800)
      /\ under "SEC_PER_WEEK"%string = Some (V_double (x / 3600 * 24 * 7)%float)).
Proof. cbv zeta. repeat split; reflexivity. Qed.

End MoreFacts.

(** ** The loop and its bounds *)

Section LoopFacts.

Lemma loop_prefix n : forall i (inval : list PyDateTime_DateTime)
    (outval : list double),
  (i + n <= length inval)%nat -> (i + n <= length outval)%nat ->
  loop n i inval outval
  = Some (take i outval ++ (date2num <$> take n (drop i inval))
          ++ drop (i + n) outval).
Proof.
  induction n as [ | n IH]; intros i inval outval Hi Ho.
  - cbn [loop]. rewrite take_0, Nat.add_0_r. cbn [fmap list_fmap app].
    rewrite take_drop. reflexivity.
  - cbn [loop].
    destruct (lookup_lt_is_Some_2 inval i) as [o Hlk]; [lia | ].
    rewrite Hlk. case_decide; [ | lia].
    rewrite IH by (rewrite ?length_insert; lia).
    rewrite (take_S_r _ _ (date2num o)) by (apply list_lookup_insert_eq; lia).
    rewrite take_insert_ge by lia.
    rewrite drop_insert_lt by lia.
    rewrite (drop_S _ _ _ Hlk). cbn [take]. rewrite fmap_cons.
    rewrite <- app_assoc. cbn [app].
    replace (S i + n)%nat with (i + S n)%nat by lia. reflexivity.
Qed.

Lemma loop_out_of_bounds n : forall i (inval : list PyDateTime_DateTime)
    (outval : list double),
  (i <= length inval)%nat -> (i <= length outval)%nat ->
  (length inval < i + n \/ length outval < i + n)%nat ->
  loop n i inval outval = None.
Proof.
  induction n as [ | n IH]; intros i inval outval Hi Ho Hn; [lia | ].
  cbn [loop]. destruct (inval !! i) as [o | ] eqn:Hlk; [ | reflexivity].
  apply lookup_lt_Some in Hlk.
  case_decide; [ | reflexivity].
  apply IH; rewrite ?length_insert; lia.
Qed.

Lemma run_loop_within (inval : list PyDateTime_DateTime)
    (outval : list double) (inval_p_len : Z) :
  let k := Z.to_nat inval_p_len in
  (k <= length inval)%nat -> (k <= length outval)%nat ->
  run_loop inval_p_len inval outval
  = Some ((date2num <$> take k inval) ++ drop k outval).
Proof.
  intros k Hi Ho. unfold run_loop. fold k.
  rewrite loop_prefix by lia.
  rewrite take_0, drop_0. reflexivity.
Qed.

Lemma run_loop_beyond (inval : list PyDateTime_DateTime)
    (outval : list double) (inval_p_len : Z) :
  let k := Z.to_nat inval_p_len in
  (length inval < k)%nat \/ (length outval < k)%nat ->
  run_loop inval_p_len inval outval = None.
Proof.
  intros k Hk. unfold run_loop. fold k.
  rewrite loop_out_of_bounds by lia. reflexivity.
Qed.

(** X1. The loop of lines 100-102, run on an input array and a buffer with
    a bound within both: it converts the first [inval_p_len] elements and
    leaves the rest of the buffer as it was; with a bound of zero or below
    it leaves the whole buffer. *)
Theorem run_loop_prefix (inval : list PyDateTime_DateTime)
    (outval : list double) (inval_p_len : Z) :
  let k := Z.to_nat inval_p_len in
  (k <= length inval)%nat -> (k <= length outval)%nat ->
  run_loop inval_p_len inval outval
  = Some ((date2num <$> take k inval) ++ drop k outval).
Proof.
  intros k Hi Ho. exact (run_loop_within inval outval inval_p_len Hi Ho).
Qed.

Lemma run_loop_prefix_witness :
  run_loop 1 [datetime 2000 1 1 0 0 0 0; datetime 2000 1 2 12 0 0 0]
    [7%float; 8%float; 9%float]
  = Some [730120%float; 8%float; 9%float]
  /\ run_loop (-3) [datetime 2000 1 1 0 0 0 0] [7%float] = Some [7%float].
Proof.
  split.
  - rewrite run_loop_prefix; [reflexivity | cbn; lia | cbn; lia].
  - rewrite run_loop_prefix; [reflexivity | cbn; lia | cbn; lia].
Defined.

(** X2. The loop stays inside the two arrays exactly when its bound
    exceeds neither the length of the input nor that of the buffer;
    otherwise it reads or writes outside an array. *)
Theorem run_loop_in_bounds (inval : list PyDateTime_DateTime)
    (outval : list double) (inval_p_len : Z) :
  let k := Z.to_nat inval_p_len in
  ((exists out, run_loop inval_p_len inval outval = Some out)
   <-> (k <= length inval)%nat /\ (k <= length outval)%nat)
  /\ (run_loop inval_p_len inval outval = None
      <-> (length inval < k)%nat \/ (length outval < k)%nat).
Proof.
  intros k.
  destruct (le_lt_dec k (length inval)) as [Hi | Hi];
    [destruct (le_lt_dec k (length outval)) as [Ho | Ho] | ].
  - pose proof (run_loop_within inval outval inval_p_len Hi Ho) as Hr.
    fold k in Hr. rewrite Hr. split; split.
    + intros _. split; assumption.
    + intros _. eexists. reflexivity.
    + discriminate.
    + lia.
  - rewrite (run_loop_beyond inval outval inval_p_len (or_intror Ho)).
    split; split.
    + intros [out Hout]. discriminate Hout.
    + lia.
    + intros _. right. exact Ho.
    + reflexivity.
  - rewrite (run_loop_beyond inval outval inval_p_len (or_introl Hi)).
    split; split.
    + intros [out Hout]. discriminate Hout.
    + lia.
    + intros _. left. exact Hi.
    + reflexivity.
Qed.

(** X3. When the loop completes, the buffer has the length it had, and
    every element at or beyond the bound is as it was: the loop neither
    resizes the buffer nor writes past its count. *)
Theorem run_loop_buffer (inval : list PyDateTime_DateTime) (inval_p_len : Z)
    (outval out : list double) :
  run_loop inval_p_len inval outval = Some out ->
  length out = length outval
  /\ (forall j, (Z.to_nat inval_p_len <= j)%nat -> out !! j = outval !! j).
Proof.
  intros Hr.
  set (k := Z.to_nat inval_p_len).
  assert (Hb : (k <= length inval)%nat /\ (k <= length outval)%nat).
  { destruct (le_lt_dec k (length inval)) as [Hi | Hi];
      [destruct (le_lt_dec k (length outval)) as [Ho | Ho]; [tauto | ] | ].
    - rewrite (run_loop_beyond inval outval inval_p_len (or_intror Ho))
        in Hr. discriminate Hr.
    - rewrite (run_loop_beyond inval outval inval_p_len (or_introl Hi))
        in Hr. discriminate Hr. }
  destruct Hb as [Hi Ho].
  rewrite (run_loop_within inval outval inval_p_len Hi Ho) in Hr.
  injection Hr as <-. fold k.
  assert (Hlen : length (date2num <$> take k inval) = k)
    by (rewrite length_fmap, length_take; lia).
  split.
  - rewrite length_app, Hlen, length_drop. lia.
  - intros j Hj. rewrite lookup_app_r by lia. rewrite Hlen, lookup_drop.
    f_equal. lia.
Qed.

Lemma run_loop_buffer_witness :
  length [730120%float; 8%float; 9%float] = 3%nat
  /\ [730120%float; 8%float; 9%float] !! 2%nat = Some 9%float.
Proof.
  destruct (run_loop_buffer
              [datetime 2000 1 1 0 0 0 0; datetime 2000 1 2 12 0 0 0]
              1 [7%float; 8%float; 9%float]
              [730120%float; 8%float; 9%float]) as [Hl Hj];
    [reflexivity | ].
  split; [exact Hl | ].
  exact (Hj 2%nat ltac:(cbn; lia)).
Defined.

(** X4. In the buffer the loop fills, the sentinel marks exactly the
    elements that failed the type check: at the place of a valid timestamp
    there is never -999.0, at the place of an object that is not a date
    there always is, and the loop goes on to the end either way. *)
Theorem sentinel_marks_non_dates (inval : list PyDateTime_DateTime)
    (outval : list double) i o :
  length outval = length inval ->
  inval !! i = Some o ->
  valid_timestamp o \/ PyDate_Check o = false ->
  exists out,
    run_loop (Z.of_nat (length inval)) inval outval = Some out
    /\ (out !! i = Some (-999)%float <-> PyDate_Check o = false).
Proof.
  intros Hlen Hlk Ho. exists (date2num <$> inval).
  split; [apply run_loop_all, Hlen | ].
  rewrite list_lookup_fmap, Hlk. cbn [fmap option_fmap option_map].
  destruct Ho as [Hv | Hc].
  - pose proof (valid_timestamp_check o Hv) as Hc. rewrite Hc.
    split; [ | discriminate]. intros [= Heq]. exfalso.
    destruct Hv as (_ & Hd & _ & Hh & Hm & Hs & Hu).
    pose proof (ymd_to_ord_bounds _ _ _ Hd) as [Hlo _].
    assert (Hn : nonneg (date2num o) = true)
      by (apply nonneg_date2num; [exact Hc | lia ..]).
    rewrite Heq in Hn. discriminate Hn.
  - split; [intros _; exact Hc | intros _].
    f_equal. unfold date2num, date2num_reads. rewrite Hc. reflexivity.
Qed.

Lemma sentinel_marks_non_dates_witness :
  exists out,
    run_loop 2 [datetime 2000 1 1 0 0 0 0; not_a_date 0 0 0 0 0 0 0]
      [0%float; 0%float]
    = Some out
    /\ (out !! 1%nat = Some (-999)%float
        <-> PyDate_Check (not_a_date 0 0 0 0 0 0 0) = false).
Proof.
  apply (sentinel_marks_non_dates
           [datetime 2000 1 1 0 0 0 0; not_a_date 0 0 0 0 0 0 0]
           [0%float; 0%float] 1%nat (not_a_date 0 0 0 0 0 0 0));
    [reflexivity | reflexivity | right; reflexivity].
Defined.

End LoopFacts.
